(** * oras-go: graph traversal and extended copy

    A shallow embedding of [content.Successors] (src/registry/repository.go,
    second unit) and of the extended-copy engine (src/extendedcopy.go),
    together with the properties the specification states about them.

    Conventions.
    - Go values of type [error] are values of [error]; a Go function
      returning [(T, error)] returns [result T].
    - Calls made on the source store are recorded in a call log (the writer
      monad [W]); the log is ghost data used to state which store operations
      a function performs.
    - Collaborators that are not part of the translated sources (the JSON
      decoder, the regular-expression engine, [content.FetchAll],
      [oras.CopyGraph], the iteration order of a Go map) are members of
      type classes, so every theorem holds for all of their behaviours. *)

From Stdlib Require Import ZArith List Ascii String Lia Permutation.
From stdpp Require Import gmap strings list fin_maps fin_sets.

Open Scope string_scope.
Open Scope list_scope.
Open Scope Z_scope.

(** ** Errors and results *)

Inductive error : Type :=
  | ErrNilSource              (* errors.New("nil source graph target") *)
  | ErrNilDestination         (* errors.New("nil destination target") *)
  | ErrMissingArtifactType
  | ErrInvalidDateTimeFormat
  | ErrOther (msg : string).  (* any error raised by a collaborator *)

Inductive result (A : Type) : Type :=
  | Ok (a : A)
  | Err (e : error).
Arguments Ok {A} a.
Arguments Err {A} e.

Definition result_bind {A B} (r : result A) (f : A -> result B) : result B :=
  match r with
  | Ok a => f a
  | Err e => Err e
  end.

Abbreviation bytes := (list Byte.byte).

(** ** Media types and descriptors of the external packages *)

Module docker.
(** Modelled from the spec: the constants of internal/docker, which is not
    among the translated sources (section 6, media type constants). *)
Definition MediaTypeManifest : string :=
  "application/vnd.docker.distribution.manifest.v2+json".
Definition MediaTypeManifestList : string :=
  "application/vnd.docker.distribution.manifest.list.v2+json".
End docker.

Module ocispec.
Definition MediaTypeImageManifest : string :=
  "application/vnd.oci.image.manifest.v1+json".
Definition MediaTypeImageIndex : string :=
  "application/vnd.oci.image.index.v1+json".
Definition MediaTypeArtifactManifest : string :=
  "application/vnd.oci.artifact.manifest.v1+json".
Definition AnnotationArtifactCreated : string :=
  "org.opencontainers.artifact.created".

(** [Annotations] is a Go map that may be nil: [None] is the nil map. *)
Record Descriptor : Type := mkDescriptor {
  MediaType : string;
  Digest : string;
  Size : Z;
  Annotations : option (gmap string string);
  ArtifactType : string
}.

Definition withAnnotations (d : Descriptor) (a : option (gmap string string))
  : Descriptor :=
  {| MediaType := MediaType d; Digest := Digest d; Size := Size d;
     Annotations := a; ArtifactType := ArtifactType d |}.

(** The zero value [ocispec.Descriptor{}]. *)
Definition zero : Descriptor :=
  {| MediaType := ""; Digest := ""; Size := 0;
     Annotations := None; ArtifactType := "" |}.

Record Manifest : Type := mkManifest {
  Config : Descriptor;
  Layers : list Descriptor
}.

Record Index : Type := mkIndex {
  Manifests : list Descriptor
}.

Record Artifact : Type := mkArtifact {
  ArtifactMediaType : string;
  ArtifactArtifactType : string;
  ArtifactBlobs : list Descriptor;
  ArtifactSubject : option Descriptor;
  ArtifactAnnotations : option (gmap string string)
}.
End ocispec.

Module artifactspec.
Definition MediaTypeArtifactManifest : string :=
  "application/vnd.cncf.oras.artifact.manifest.v1+json".

(** The legacy artifact descriptor shape. *)
Record Descriptor : Type := mkDescriptor {
  MediaType : string;
  Digest : string;
  Size : Z;
  Annotations : option (gmap string string);
  ArtifactType : string
}.

Record Manifest : Type := mkManifest {
  ManifestArtifactType : string;
  Blobs : list Descriptor;
  Subject : option Descriptor
}.
End artifactspec.

Module descriptor.
(** Modelled from the spec: internal/descriptor is not among the translated
    sources.  The equivalence key is "(media_type, digest, size)"
    (sections 3 and 4.A). *)
Definition Descriptor : Type := (string * string * Z)%type.

Definition FromOCI (desc : ocispec.Descriptor) : Descriptor :=
  (ocispec.MediaType desc, ocispec.Digest desc, ocispec.Size desc).

(** Modelled from the spec: the conversion from the legacy artifact shape
    "carries over media_type, digest, size, artifactType, annotations"
    (section 3, variant 3). *)
Definition ArtifactToOCI (desc : artifactspec.Descriptor) : ocispec.Descriptor :=
  {| ocispec.MediaType := artifactspec.MediaType desc;
     ocispec.Digest := artifactspec.Digest desc;
     ocispec.Size := artifactspec.Size desc;
     ocispec.Annotations := artifactspec.Annotations desc;
     ocispec.ArtifactType := artifactspec.ArtifactType desc |}.
End descriptor.

(** ** Collaborators *)

(** [encoding/json], at the types the sources decode into.  [Unmarshal*]
    is [json.Unmarshal], [Decode*] is [json.NewDecoder(rc).Decode]. *)
Class Json : Type := {
  UnmarshalManifest : bytes -> result ocispec.Manifest;
  UnmarshalIndex : bytes -> result ocispec.Index;
  UnmarshalLegacyManifest : bytes -> result artifactspec.Manifest;
  UnmarshalArtifact : bytes -> result ocispec.Artifact;
  (* into a struct whose only field is the annotations map *)
  DecodeAnnotations : bytes -> result (option (gmap string string));
  DecodeLegacyManifest : bytes -> result artifactspec.Manifest
}.

(** [regexp]: a compiled pattern and its method [MatchString]. *)
Class Regex : Type := {
  Regexp : Type;
  MatchString : Regexp -> string -> bool
}.

(** ** content.Successors *)

Module content.
Record Fetcher : Type := mkFetcher {
  Fetch : ocispec.Descriptor -> result bytes
}.

Section Successors.
Context {json : Json}.
(** [content.FetchAll] is not among the translated sources. *)
Variable FetchAll : Fetcher -> ocispec.Descriptor -> result bytes.

Definition Successors (fetcher : Fetcher) (node : ocispec.Descriptor)
  : result (list ocispec.Descriptor) :=
  let mt := ocispec.MediaType node in
  if (mt =? docker.MediaTypeManifest)%string
     || (mt =? ocispec.MediaTypeImageManifest)%string then
    result_bind (FetchAll fetcher node) (fun content =>
    result_bind (UnmarshalManifest content) (fun manifest =>
    Ok ([ocispec.Config manifest] ++ ocispec.Layers manifest)))
  else if (mt =? docker.MediaTypeManifestList)%string
          || (mt =? ocispec.MediaTypeImageIndex)%string then
    result_bind (FetchAll fetcher node) (fun content =>
    result_bind (UnmarshalIndex content) (fun index =>
    Ok (ocispec.Manifests index)))
  else if (mt =? artifactspec.MediaTypeArtifactManifest)%string then
    result_bind (FetchAll fetcher node) (fun content =>
    result_bind (UnmarshalLegacyManifest content) (fun manifest =>
    let nodes := [] in
    let nodes :=
      match artifactspec.Subject manifest with
      | Some subject => nodes ++ [descriptor.ArtifactToOCI subject]
      | None => nodes
      end in
    Ok (fold_left (fun nodes blob => nodes ++ [descriptor.ArtifactToOCI blob])
                  (artifactspec.Blobs manifest) nodes)))
  else if (mt =? ocispec.MediaTypeArtifactManifest)%string then
    result_bind (FetchAll fetcher node) (fun content =>
    result_bind (UnmarshalArtifact content) (fun manifest =>
    let nodes :=
      match ocispec.ArtifactSubject manifest with
      | Some subject => [subject]
      | None => []
      end in
    Ok (nodes ++ ocispec.ArtifactBlobs manifest)))
  else Ok [].
End Successors.
End content.

(** ** Calls on the source store and the call log *)

Inductive Call : Type :=
  | CallPredecessors (node : ocispec.Descriptor)
  | CallFetch (target : ocispec.Descriptor)
  | CallReferrers (desc : ocispec.Descriptor) (artifactType : string).

(** A computation that may fail and that logs the store calls it made, in
    the order it made them. *)
Definition W (A : Type) : Type := (list Call * result A)%type.

Definition ret {A} (a : A) : W A := ([], Ok a).
Definition lift {A} (r : result A) : W A := ([], r).
Definition call {A} (c : Call) (r : result A) : W A := ([c], r).
Definition bind {A B} (m : W A) (f : A -> W B) : W B :=
  match m with
  | (l, Ok a) => let '(l', r) := f a in (l ++ l', r)
  | (l, Err e) => (l, Err e)
  end.

Notation "'let*' x ':=' m 'in' k" := (bind m (fun x => k))
  (at level 10, x name, m at level 100, k at level 200).

Module registry.
(** Modelled from the spec: the implementations of ReferrerFinder are
    external stores.  "Page-oriented; the callback is invoked once per page
    in the registry's native page order; returning an error from the
    callback aborts the walk" (section 4.B).  A finder answers with the
    pages it delivers and with the error, if any, it meets after them. *)
Record ReferrerFinder : Type := mkReferrerFinder {
  pages : ocispec.Descriptor -> string ->
          list (list ocispec.Descriptor) * option error
}.

(** The callback [fn] closes over a state of type [S]. *)
Fixpoint feed {S} (fn : list ocispec.Descriptor -> S -> S * option error)
    (ps : list (list ocispec.Descriptor)) (s : S) : S * option error :=
  match ps with
  | [] => (s, None)
  | page :: rest =>
      match fn page s with
      | (s', None) => feed fn rest s'
      | (s', Some e) => (s', Some e)
      end
  end.

Definition Referrers {S} (rf : ReferrerFinder) (desc : ocispec.Descriptor)
    (artifactType : string)
    (fn : list ocispec.Descriptor -> S -> S * option error) (s : S)
  : list Call * (S * option error) :=
  let '(ps, final) := pages rf desc artifactType in
  ([CallReferrers desc artifactType],
   match feed fn ps s with
   | (s', Some e) => (s', Some e)
   | (s', None) => (s', final)
   end).
End registry.

Module storage.
(** [content.ReadOnlyGraphStorage]: fetch and predecessors; the field
    [AsReferrerFinder] is the outcome of the dynamic type assertion
    [src.(registry.ReferrerFinder)]. *)
Record ReadOnlyGraphStorage : Type := mkReadOnlyGraphStorage {
  Fetch : ocispec.Descriptor -> result bytes;
  Predecessors : ocispec.Descriptor -> result (list ocispec.Descriptor);
  AsReferrerFinder : option registry.ReferrerFinder
}.

(** [oras.ReadOnlyGraphTarget]: a read-only graph storage with a resolver. *)
Record ReadOnlyGraphTarget : Type := mkReadOnlyGraphTarget {
  Storage :> ReadOnlyGraphStorage;
  Resolve : string -> result ocispec.Descriptor
}.
End storage.

Module copyutil.
(** Modelled from the spec: internal/copyutil is not among the translated
    sources; it provides "an explicit LIFO stack of (Descriptor, depth)
    entries" (section 4.D.1). *)
Record NodeInfo : Type := mkNodeInfo {
  Node : ocispec.Descriptor;
  Depth : Z
}.

Definition Stack : Type := list NodeInfo.

Definition Push (s : Stack) (i : NodeInfo) : Stack := i :: s.

Definition Pop (s : Stack) : option (NodeInfo * Stack) :=
  match s with
  | [] => None
  | i :: s' => Some (i, s')
  end.
End copyutil.

(** Go's [int] is 64 bits wide here; [int_wrap] is its wrap-around. *)
Definition int_wrap (z : Z) : Z := (z + 2 ^ 63) mod 2 ^ 64 - 2 ^ 63.
Definition max_int : Z := 2 ^ 63 - 1.

(** The destination target: its state and its [Tag] method. *)
Class Destination : Type := {
  Target : Type;
  Tag : Target -> ocispec.Descriptor -> string -> Target * option error
}.

(** [oras.CopyGraph] and its options are not among the translated sources. *)
Class GraphCopier `{Destination} : Type := {
  CopyGraphOptions : Type;
  CopyGraph : storage.ReadOnlyGraphStorage -> Target -> ocispec.Descriptor ->
              CopyGraphOptions -> Target * option error
}.

(** The order in which a [range] statement visits a Go map is not specified:
    it is some enumeration of the entries. *)
Class MapRange : Type := {
  map_range : gmap descriptor.Descriptor ocispec.Descriptor ->
              list (descriptor.Descriptor * ocispec.Descriptor);
  map_range_perm : forall m, map_range m ≡ₚ map_to_list m
}.

(** ** The extended-copy engine (src/extendedcopy.go) *)

Module oras.
Import storage.

(** Ghost events of the upward walk, in the order they happen. *)
Inductive Event : Type :=
  | EvVisit (node : ocispec.Descriptor) (depth : Z)
  | EvAddRoot (key : descriptor.Descriptor) (val : ocispec.Descriptor)
  | EvFindPredecessors (node : ocispec.Descriptor) (calls : list Call).

Definition FindPredecessorsFunc : Type :=
  ReadOnlyGraphStorage -> ocispec.Descriptor -> W (list ocispec.Descriptor).

Section Engine.
Context {json : Json} {regexp : Regex}.
Context {destination : Destination} {copier : GraphCopier}.
Context {range : MapRange}.

Record ExtendedCopyGraphOptions : Type := mkExtendedCopyGraphOptions {
  CopyOptions : CopyGraphOptions;
  Depth : Z;
  FindPredecessors : option FindPredecessorsFunc
}.

Record ExtendedCopyOptions : Type := mkExtendedCopyOptions {
  GraphOptions : ExtendedCopyGraphOptions
}.

Definition withFindPredecessors (opts : ExtendedCopyGraphOptions)
    (f : FindPredecessorsFunc) : ExtendedCopyGraphOptions :=
  {| CopyOptions := CopyOptions opts; Depth := Depth opts;
     FindPredecessors := Some f |}.

(** *** findRoots *)

(** The locals of [findRoots]: [visited] only ever maps keys to [true],
    so it is the set of its keys. *)
Record walk : Type := mkWalk {
  visited : gset descriptor.Descriptor;
  roots : gmap descriptor.Descriptor ocispec.Descriptor;
  stack : copyutil.Stack;
  trace : list Event
}.

Definition addRoot (key : descriptor.Descriptor) (val : ocispec.Descriptor)
    (roots : gmap descriptor.Descriptor ocispec.Descriptor)
  : gmap descriptor.Descriptor ocispec.Descriptor :=
  match roots !! key with
  | Some _ => roots
  | None => <[key := val]> roots
  end.

(** The function installed when [opts.FindPredecessors] is nil. *)
Definition defaultFindPredecessors : FindPredecessorsFunc :=
  fun src desc => call (CallPredecessors desc) (Predecessors src desc).

Definition findPredecessorsOf (opts : ExtendedCopyGraphOptions)
  : FindPredecessorsFunc :=
  match FindPredecessors opts with
  | Some f => f
  | None => defaultFindPredecessors
  end.

(** The loop that pushes the predecessors of [current]. *)
Definition pushPredecessors (visited : gset descriptor.Descriptor)
    (current : copyutil.NodeInfo) (predecessors : list ocispec.Descriptor)
    (stack : copyutil.Stack) : copyutil.Stack :=
  fold_left
    (fun stack predecessor =>
       let predecessorKey := descriptor.FromOCI predecessor in
       if decide (predecessorKey ∈ visited) then stack
       else copyutil.Push stack
              {| copyutil.Node := predecessor;
                 copyutil.Depth := int_wrap (copyutil.Depth current + 1) |})
    predecessors stack.

Inductive step_result : Type :=
  | Next (w : walk)                            (* continue *)
  | Break (w : walk)                           (* empty stack *)
  | Return (w : walk) (e : error).             (* return nil, err *)

(** One iteration of the [for] loop of [findRoots]. *)
Definition step (storage : ReadOnlyGraphStorage)
    (opts : ExtendedCopyGraphOptions) (w : walk) : step_result :=
  match copyutil.Pop (stack w) with
  | None => Break w
  | Some (current, stack') =>
      let currentNode := copyutil.Node current in
      let currentKey := descriptor.FromOCI currentNode in
      if decide (currentKey ∈ visited w) then
        Next {| visited := visited w; roots := roots w;
                stack := stack'; trace := trace w |}
      else
        let visited' := {[currentKey]} ∪ visited w in
        let trace' := trace w ++ [EvVisit currentNode (copyutil.Depth current)] in
        if (0 <? Depth opts) && (copyutil.Depth current =? Depth opts) then
          Next {| visited := visited';
                  roots := addRoot currentKey currentNode (roots w);
                  stack := stack';
                  trace := trace' ++ [EvAddRoot currentKey currentNode] |}
        else
          match findPredecessorsOf opts storage currentNode with
          | (calls, Err e) =>
              Return {| visited := visited'; roots := roots w; stack := stack';
                        trace := trace' ++ [EvFindPredecessors currentNode calls] |} e
          | (calls, Ok predecessors) =>
              let trace'' := trace' ++ [EvFindPredecessors currentNode calls] in
              if (Z.of_nat (length predecessors) =? 0) then
                Next {| visited := visited';
                        roots := addRoot currentKey currentNode (roots w);
                        stack := stack';
                        trace := trace'' ++ [EvAddRoot currentKey currentNode] |}
              else
                Next {| visited := visited';
                        roots := roots w;
                        stack := pushPredecessors visited' current predecessors stack';
                        trace := trace'' |}
          end
  end.

(** The loop has no bound of its own: [fuel] bounds the number of
    iterations, and [None] means that it was exhausted. *)
Fixpoint loop (fuel : nat) (storage : ReadOnlyGraphStorage)
    (opts : ExtendedCopyGraphOptions) (w : walk)
  : option (list Event * result (gmap descriptor.Descriptor ocispec.Descriptor)) :=
  match fuel with
  | O => None
  | S fuel' =>
      match step storage opts w with
      | Next w' => loop fuel' storage opts w'
      | Break w' => Some (trace w', Ok (roots w'))
      | Return w' e => Some (trace w', Err e)
      end
  end.

Definition initial (node : ocispec.Descriptor) : walk :=
  {| visited := ∅; roots := ∅;
     stack := copyutil.Push [] {| copyutil.Node := node; copyutil.Depth := 0 |};
     trace := [] |}.

Definition findRoots (fuel : nat) (storage : ReadOnlyGraphStorage)
    (node : ocispec.Descriptor) (opts : ExtendedCopyGraphOptions)
  : option (list Event * result (gmap descriptor.Descriptor ocispec.Descriptor)) :=
  loop fuel storage opts (initial node).

(** *** Ghost vocabulary of the walk

    Nothing below is executed by the code: these are the notions in
    which the properties of [findRoots] are stated. *)

Definition state_of (r : step_result) : walk :=
  match r with
  | Next w | Break w | Return w _ => w
  end.

(** The nodes on which the walk invoked the predecessor function. *)
Definition invoked (tr : list Event) : list ocispec.Descriptor :=
  omap (fun ev => match ev with
                  | EvFindPredecessors node _ => Some node
                  | _ => None
                  end) tr.

(** The calls of [addRoot], in order: the order of discovery. *)
Definition discovered (tr : list Event)
  : list (descriptor.Descriptor * ocispec.Descriptor) :=
  omap (fun ev => match ev with
                  | EvAddRoot key val => Some (key, val)
                  | _ => None
                  end) tr.

(** The value of the first call of [addRoot] for [key]. *)
Fixpoint first_writer (key : descriptor.Descriptor)
    (l : list (descriptor.Descriptor * ocispec.Descriptor))
  : option ocispec.Descriptor :=
  match l with
  | [] => None
  | (k, v) :: l' => if decide (k = key) then Some v else first_writer key l'
  end.

(** The stack entry pushed for a predecessor of [current]. *)
Definition entry (current : copyutil.NodeInfo) (predecessor : ocispec.Descriptor)
  : copyutil.NodeInfo :=
  {| copyutil.Node := predecessor;
     copyutil.Depth := int_wrap (copyutil.Depth current + 1) |}.

Definition expanded_once (w : walk) : Prop :=
  NoDup (descriptor.FromOCI <$> invoked (trace w))
  ∧ forall d, d ∈ invoked (trace w) -> descriptor.FromOCI d ∈ visited w.

Section Ghost.
Variable src : ReadOnlyGraphStorage.
Variable opts : ExtendedCopyGraphOptions.

Definition invariant (P : walk -> Prop) : Prop :=
  forall w, P w -> P (state_of (step src opts w)).

(** [U] is closed under the predecessor function. *)
Definition closed_in (U : gset descriptor.Descriptor) : Prop :=
  forall d calls ps p,
    findPredecessorsOf opts src d = (calls, Ok ps) -> p ∈ ps ->
    descriptor.FromOCI p ∈ U.

(** One upward hop: [p] is among the predecessors found for [d]. *)
Definition edge (d p : ocispec.Descriptor) : Prop :=
  exists calls ps, findPredecessorsOf opts src d = (calls, Ok ps) ∧ p ∈ ps.

(** [hops node n d]: [d] is [n] upward hops away from [node]. *)
Inductive hops (node : ocispec.Descriptor) : nat -> ocispec.Descriptor -> Prop :=
  | hops_here : hops node O node
  | hops_up n d p : hops node n d -> edge d p -> hops node (S n) p.

(** Every stack entry and every root lies within the cap. *)
Definition within_cap (node : ocispec.Descriptor) (w : walk) : Prop :=
  (forall i, i ∈ stack w ->
     0 <= copyutil.Depth i <= Depth opts
     ∧ hops node (Z.to_nat (copyutil.Depth i)) (copyutil.Node i))
  ∧ (forall key r, roots w !! key = Some r ->
       exists n, Z.of_nat n <= Depth opts ∧ hops node n r).

(** A node visited at the cap is a root and is never expanded. *)
Definition cap_recorded (w : walk) : Prop :=
  dom (roots w) ⊆ visited w
  ∧ (forall d depth, EvVisit d depth ∈ trace w -> descriptor.FromOCI d ∈ visited w)
  ∧ (forall d, d ∈ invoked (trace w) -> descriptor.FromOCI d ∈ visited w)
  ∧ (forall d, EvVisit d (Depth opts) ∈ trace w ->
       roots w !! descriptor.FromOCI d = Some d
       ∧ forall d', d' ∈ invoked (trace w) ->
           descriptor.FromOCI d' ≠ descriptor.FromOCI d).

(** The roots are the discoveries, first writer first. *)
Definition first_wins (w : walk) : Prop :=
  dom (roots w) ⊆ visited w
  ∧ (forall key, roots w !! key = first_writer key (discovered (trace w)))
  ∧ map_to_list (roots w) ≡ₚ discovered (trace w).
End Ghost.

(** *** ExtendedCopyGraph and ExtendedCopy *)

(** What a run of [ExtendedCopyGraph] did: the events of the walk, the
    roots handed to [CopyGraph] in call order, the destination it left
    and its return value. *)
Record graph_run : Type := mkGraphRun {
  walked : list Event;
  copied : list ocispec.Descriptor;
  after : Target;
  failure : option error
}.

(** The loop over the roots: it stops at the first failing copy. *)
Fixpoint copyRoots (src : ReadOnlyGraphStorage) (opts : ExtendedCopyGraphOptions)
    (rs : list ocispec.Descriptor) (dst : Target)
  : list ocispec.Descriptor * Target * option error :=
  match rs with
  | [] => ([], dst, None)
  | root :: rest =>
      match CopyGraph src dst root (CopyOptions opts) with
      | (dst', Some e) => ([root], dst', Some e)
      | (dst', None) =>
          let '(cs, dst'', r) := copyRoots src opts rest dst' in
          (root :: cs, dst'', r)
      end
  end.

Definition ExtendedCopyGraph (fuel : nat) (src : ReadOnlyGraphStorage)
    (dst : Target) (node : ocispec.Descriptor) (opts : ExtendedCopyGraphOptions)
  : option graph_run :=
  match findRoots fuel src node opts with
  | None => None
  | Some (tr, Err e) =>
      Some {| walked := tr; copied := []; after := dst; failure := Some e |}
  | Some (tr, Ok roots) =>
      let '(cs, dst', r) := copyRoots src opts (map snd (map_range roots)) dst in
      Some {| walked := tr; copied := cs; after := dst'; failure := r |}
  end.

(** A nil interface value is [None].  The result pairs the destination
    after the call with the returned descriptor or error. *)
Definition ExtendedCopy (fuel : nat) (src : option ReadOnlyGraphTarget)
    (srcRef : string) (dst : option Target) (dstRef : string)
    (opts : ExtendedCopyOptions)
  : option (option Target * result ocispec.Descriptor) :=
  match src with
  | None => Some (dst, Err ErrNilSource)
  | Some src =>
      match dst with
      | None => Some (None, Err ErrNilDestination)
      | Some dst =>
          let dstRef := if (dstRef =? "")%string then srcRef else dstRef in
          match Resolve src srcRef with
          | Err e => Some (Some dst, Err e)
          | Ok node =>
              match ExtendedCopyGraph fuel src dst node (GraphOptions opts) with
              | None => None
              | Some run =>
                  match failure run with
                  | Some e => Some (Some (after run), Err e)
                  | None =>
                      match Tag (after run) node dstRef with
                      | (dst', Some e) => Some (Some dst', Err e)
                      | (dst', None) => Some (Some dst', Ok node)
                      end
                  end
              end
          end
      end
  end.
(** *** FilterAnnotation *)

(** The media types in the [switch] of [FilterAnnotation]. *)
Definition annotationFetched (mt : string) : bool :=
  (mt =? docker.MediaTypeManifest)%string
  || (mt =? ocispec.MediaTypeImageManifest)%string
  || (mt =? docker.MediaTypeManifestList)%string
  || (mt =? ocispec.MediaTypeImageIndex)%string
  || (mt =? artifactspec.MediaTypeArtifactManifest)%string.

(** The first half of the loop body: [p] after the optional graft. *)
Definition graftAnnotations (src : ReadOnlyGraphStorage) (p : ocispec.Descriptor)
  : W ocispec.Descriptor :=
  match ocispec.Annotations p with
  | None =>
      if annotationFetched (ocispec.MediaType p) then
        let* content := call (CallFetch p) (Fetch src p) in
        let* manifest := lift (DecodeAnnotations content) in
        match manifest with
        | None => ret (ocispec.withAnnotations p (Some ∅))
        | Some annotations => ret (ocispec.withAnnotations p (Some annotations))
        end
      else ret p
  | Some _ => ret p
  end.

(** The test [value, ok := p.Annotations[key]; ok && (regex == nil ||
    regex.MatchString(value))]; indexing a nil map finds nothing. *)
Definition annotationMatches (key : string) (regex : option Regexp)
    (p : ocispec.Descriptor) : bool :=
  match ocispec.Annotations p with
  | None => false
  | Some annotations =>
      match annotations !! key with
      | None => false
      | Some value =>
          match regex with
          | None => true
          | Some re => MatchString re value
          end
      end
  end.

Fixpoint filterAnnotationLoop (src : ReadOnlyGraphStorage) (key : string)
    (regex : option Regexp) (predecessors filtered : list ocispec.Descriptor)
  : W (list ocispec.Descriptor) :=
  match predecessors with
  | [] => ret filtered
  | p :: rest =>
      let* p := graftAnnotations src p in
      let filtered :=
        if annotationMatches key regex p then filtered ++ [p] else filtered in
      filterAnnotationLoop src key regex rest filtered
  end.

Definition FilterAnnotation (key : string) (regex : option Regexp)
    (opts : ExtendedCopyGraphOptions) : ExtendedCopyGraphOptions :=
  let fp := FindPredecessors opts in
  withFindPredecessors opts (fun src desc =>
    let* predecessors :=
      match fp with
      | None => call (CallPredecessors desc) (Predecessors src desc)
      | Some fp => fp src desc
      end in
    filterAnnotationLoop src key regex predecessors []).

(** *** FilterArtifactType *)

Definition findReferrersAndFilter (rf : registry.ReferrerFinder)
    (desc : ocispec.Descriptor) (regex : Regexp)
  : W (list ocispec.Descriptor) :=
  let fn (referrers predecessors : list ocispec.Descriptor) :=
    (fold_left
       (fun predecessors referrer =>
          if MatchString regex (ocispec.ArtifactType referrer)
          then predecessors ++ [referrer] else predecessors)
       referrers predecessors,
     @None error) in
  match registry.Referrers rf desc "" fn [] with
  | (calls, (_, Some e)) => (calls, Err e)
  | (calls, (predecessors, None)) => (calls, Ok predecessors)
  end.

Fixpoint filterArtifactTypeLoop (src : ReadOnlyGraphStorage) (regex : Regexp)
    (predecessors filtered : list ocispec.Descriptor)
  : W (list ocispec.Descriptor) :=
  match predecessors with
  | [] => ret filtered
  | p :: rest =>
      if (ocispec.MediaType p =? artifactspec.MediaTypeArtifactManifest)%string then
        let* content := call (CallFetch p) (Fetch src p) in
        let* manifest := lift (DecodeLegacyManifest content) in
        let filtered :=
          if MatchString regex (artifactspec.ManifestArtifactType manifest)
          then filtered ++ [p] else filtered in
        filterArtifactTypeLoop src regex rest filtered
      else filterArtifactTypeLoop src regex rest filtered
  end.

Definition FilterArtifactType (regex : option Regexp)
    (opts : ExtendedCopyGraphOptions) : ExtendedCopyGraphOptions :=
  match regex with
  | None => opts
  | Some regex =>
      let fp := FindPredecessors opts in
      withFindPredecessors opts (fun src desc =>
        match fp with
        | None =>
            match AsReferrerFinder src with
            | Some rf => findReferrersAndFilter rf desc regex
            | None =>
                let* predecessors :=
                  call (CallPredecessors desc) (Predecessors src desc) in
                filterArtifactTypeLoop src regex predecessors []
            end
        | Some fp =>
            let* predecessors := fp src desc in
            filterArtifactTypeLoop src regex predecessors []
        end)
  end.
(** *** Ghost vocabulary of the filters *)

Definition isLegacyArtifact (p : ocispec.Descriptor) : bool :=
  (ocispec.MediaType p =? artifactspec.MediaTypeArtifactManifest)%string.

(** [p] is a legacy artifact manifest whose fetched manifest has an
    artifact type that [re] matches. *)
Definition keptByType (src : ReadOnlyGraphStorage) (re : Regexp)
    (p : ocispec.Descriptor) : bool :=
  isLegacyArtifact p
  && match Fetch src p with
     | Ok content =>
         match DecodeLegacyManifest content with
         | Ok manifest => MatchString re (artifactspec.ManifestArtifactType manifest)
         | Err _ => false
         end
     | Err _ => false
     end.

(** The manifest of [p] can be fetched and decoded. *)
Definition decodable (src : ReadOnlyGraphStorage) (p : ocispec.Descriptor) : Prop :=
  exists content manifest,
    Fetch src p = Ok content ∧ DecodeLegacyManifest content = Ok manifest.

Definition isReferrersCall (c : Call) : bool :=
  match c with
  | CallReferrers _ _ => true
  | _ => false
  end.

(** The referrers of all pages whose artifact type [re] matches. *)
Definition matchingReferrers (re : Regexp) (ps : list (list ocispec.Descriptor))
  : list ocispec.Descriptor :=
  List.filter (fun referrer => MatchString re (ocispec.ArtifactType referrer))
    (concat ps).
End Engine.
End oras.

(** ** PackArtifact *)

Module rfc3339.
(** Modelled from the spec: the check that a value "parses as an RFC 3339
    timestamp" (section 4.E) is not among the translated sources.  This is
    the date-time production of RFC 3339, section 5.6, with the field
    ranges of section 5.7. *)
Definition isDigit (c : ascii) : bool :=
  let n := Z.of_nat (nat_of_ascii c) in (48 <=? n) && (n <=? 57).

Definition digitValue (c : ascii) : Z := Z.of_nat (nat_of_ascii c) - 48.

(** Exactly [n] digits, as a number. *)
Fixpoint digits (n : nat) (acc : Z) (s : list ascii) : option (Z * list ascii) :=
  match n with
  | O => Some (acc, s)
  | S n' =>
      match s with
      | c :: s' =>
          if isDigit c then digits n' (10 * acc + digitValue c) s' else None
      | [] => None
      end
  end.

Definition expect (c : ascii) (s : list ascii) : option (list ascii) :=
  match s with
  | c' :: s' => if Ascii.eqb c c' then Some s' else None
  | [] => None
  end.

Fixpoint skipDigits (s : list ascii) : list ascii :=
  match s with
  | c :: s' => if isDigit c then skipDigits s' else s
  | [] => []
  end.

(** The optional fraction: a dot followed by at least one digit. *)
Definition secfrac (s : list ascii) : option (list ascii) :=
  match s with
  | "."%char :: c :: s' => if isDigit c then Some (skipDigits s') else None
  | "."%char :: [] => None
  | _ => Some s
  end.

Definition leapYear (y : Z) : bool :=
  ((y mod 4 =? 0) && negb (y mod 100 =? 0)) || (y mod 400 =? 0).

Definition daysIn (y m : Z) : Z :=
  if m =? 2 then (if leapYear y then 29 else 28)
  else if (m =? 4) || (m =? 6) || (m =? 9) || (m =? 11) then 30
  else 31.

Definition offset (s : list ascii) : option (list ascii) :=
  match s with
  | "Z"%char :: s' => Some s'
  | c :: s' =>
      if Ascii.eqb c "+" || Ascii.eqb c "-" then
        '(h, s1) ← digits 2 0 s';
        s2 ← expect ":" s1;
        '(m, s3) ← digits 2 0 s2;
        if (h <=? 23) && (m <=? 59) then Some s3 else None
      else None
  | [] => None
  end.

Definition parse (v : string) : bool :=
  match
    '(year, s) ← digits 4 0 (list_ascii_of_string v);
    s ← expect "-" s;
    '(month, s) ← digits 2 0 s;
    s ← expect "-" s;
    '(day, s) ← digits 2 0 s;
    s ← expect "T" s;
    '(hour, s) ← digits 2 0 s;
    s ← expect ":" s;
    '(minute, s) ← digits 2 0 s;
    s ← expect ":" s;
    '(second, s) ← digits 2 0 s;
    s ← secfrac s;
    s ← offset s;
    Some ((1 <=? month) && (month <=? 12)
          && (1 <=? day) && (day <=? daysIn year month)
          && (hour <=? 23) && (minute <=? 59) && (second <=? 60)
          && match s with [] => true | _ => false end)
  with
  | Some ok => ok
  | None => false
  end.
End rfc3339.

(** The store [PackArtifact] pushes to. *)
Class Pusher : Type := {
  Store : Type;
  Push : Store -> ocispec.Descriptor -> bytes -> Store * option error
}.

(** What the packer needs besides the store: the clock, already formatted
    as RFC 3339 in UTC, the JSON encoder and the digest of a byte string. *)
Class PackEnv : Type := {
  now : string;
  MarshalArtifact : ocispec.Artifact -> result bytes;
  FromBytes : bytes -> string
}.

Module pack.
Section PackArtifact.
Context {pusher : Pusher} {env : PackEnv}.

Record PackArtifactOptions : Type := mkPackArtifactOptions {
  Subject : option ocispec.Descriptor;
  ManifestAnnotations : option (gmap string string)
}.

(** Modelled from the spec: step 2 of PackArtifactManifest.  "If
    manifest_annotations contains the reserved key, validate that its
    value parses as an RFC 3339 timestamp; fail with
    InvalidDateTimeFormat if not.  If the key is absent, insert the
    current wall-clock time formatted as RFC 3339 (UTC)." *)
Definition ensureAnnotationCreated (annotations : option (gmap string string))
  : result (gmap string string) :=
  let annotations := default ∅ annotations in
  match annotations !! ocispec.AnnotationArtifactCreated with
  | Some value =>
      if rfc3339.parse value then Ok annotations
      else Err ErrInvalidDateTimeFormat
  | None => Ok (<[ocispec.AnnotationArtifactCreated := now]> annotations)
  end.

(** What a call of [PackArtifact] did: the pushes it made, the store it
    left and its return value. *)
Record pack_run : Type := mkPackRun {
  pushed : list (ocispec.Descriptor * bytes);
  store : Store;
  returned : result ocispec.Descriptor
}.

(** Modelled from the spec: PackArtifactManifest (section 4.E) is not
    among the translated sources, only its tests are.  "1. If
    artifact_type is empty: fail with MissingArtifactType.  2. [the
    reserved annotation].  3. Build an artifact manifest with media_type
    = application/vnd.oci.artifact.manifest.v1+json, the artifact type,
    the blobs, optional subject, and the finalized annotations.
    4. Serialize canonically, push to dst, return its descriptor." *)
Definition PackArtifact (dst : Store) (artifactType : string)
    (blobs : list ocispec.Descriptor) (opts : PackArtifactOptions) : pack_run :=
  if (artifactType =? "")%string then
    {| pushed := []; store := dst; returned := Err ErrMissingArtifactType |}
  else
    match ensureAnnotationCreated (ManifestAnnotations opts) with
    | Err e => {| pushed := []; store := dst; returned := Err e |}
    | Ok annotations =>
        let manifest :=
          {| ocispec.ArtifactMediaType := ocispec.MediaTypeArtifactManifest;
             ocispec.ArtifactArtifactType := artifactType;
             ocispec.ArtifactBlobs := blobs;
             ocispec.ArtifactSubject := Subject opts;
             ocispec.ArtifactAnnotations := Some annotations |} in
        match MarshalArtifact manifest with
        | Err e => {| pushed := []; store := dst; returned := Err e |}
        | Ok manifestJSON =>
            let manifestDesc :=
              {| ocispec.MediaType := ocispec.MediaTypeArtifactManifest;
                 ocispec.Digest := FromBytes manifestJSON;
                 ocispec.Size := Z.of_nat (length manifestJSON);
                 ocispec.Annotations := None;
                 ocispec.ArtifactType := "" |} in
            match Push dst manifestDesc manifestJSON with
            | (dst', Some e) =>
                {| pushed := [(manifestDesc, manifestJSON)]; store := dst';
                   returned := Err e |}
            | (dst', None) =>
                {| pushed := [(manifestDesc, manifestJSON)]; store := dst';
                   returned := Ok manifestDesc |}
            end
        end
    end.
End PackArtifact.
End pack.

(** ** Concrete collaborators and stores

    Small instances of the interfaces above, on which the theorems below
    are exercised. *)

Module example.
Import oras storage.

Definition desc (mediaType digest : string) : ocispec.Descriptor :=
  {| ocispec.MediaType := mediaType; ocispec.Digest := digest;
     ocispec.Size := 2; ocispec.Annotations := None;
     ocispec.ArtifactType := "" |}.

Definition legacy (mediaType digest : string) : artifactspec.Descriptor :=
  {| artifactspec.MediaType := mediaType; artifactspec.Digest := digest;
     artifactspec.Size := 2; artifactspec.Annotations := None;
     artifactspec.ArtifactType := "" |}.

Definition config : ocispec.Descriptor := desc "config" "sha256:c".
Definition layer1 : ocispec.Descriptor := desc "test" "sha256:1".
Definition layer2 : ocispec.Descriptor := desc "test" "sha256:2".

(** A decoder that ignores its input: every content is the same image
    manifest, index, artifact or annotated document. *)
#[local] Instance json : Json := {|
  UnmarshalManifest _ :=
    Ok {| ocispec.Config := config; ocispec.Layers := [layer1; layer2] |};
  UnmarshalIndex _ := Ok {| ocispec.Manifests := [] |};
  UnmarshalLegacyManifest _ :=
    Ok {| artifactspec.ManifestArtifactType := "x";
          artifactspec.Blobs := [legacy "test" "sha256:1"; legacy "test" "sha256:2"];
          artifactspec.Subject := Some (legacy "subject" "sha256:s") |};
  UnmarshalArtifact _ := Err (ErrOther "unexpected");
  DecodeAnnotations _ := Ok (Some {[ "k" := "v" ]});
  DecodeLegacyManifest _ :=
    Ok {| artifactspec.ManifestArtifactType := "x";
          artifactspec.Blobs := []; artifactspec.Subject := None |}
|}.

(** Patterns that match exactly one string. *)
#[local] Instance regexp : Regex := {|
  Regexp := string;
  MatchString re s := (re =? s)%string
|}.

(** A destination that records the tags and the roots copied into it. *)
Record memory : Type := mkMemory {
  tags : gmap string ocispec.Descriptor;
  received : list ocispec.Descriptor
}.

#[local] Instance destination : Destination := {|
  Target := memory;
  Tag dst d reference :=
    ({| tags := <[reference := d]> (tags dst); received := received dst |}, None)
|}.

#[local] Instance copier : GraphCopier := {|
  CopyGraphOptions := unit;
  CopyGraph src dst root _ :=
    ({| tags := tags dst; received := received dst ++ [root] |}, None)
|}.

(** Two enumerations of a map: the order of [map_to_list] and its
    reverse. *)
Definition forwards : MapRange := {|
  map_range m := map_to_list m;
  map_range_perm m := reflexivity (map_to_list m)
|}.

Definition backwards : MapRange := {|
  map_range m := reverse (map_to_list m);
  map_range_perm m := reverse_Permutation (map_to_list m)
|}.

Definition empty : memory := {| tags := ∅; received := [] |}.

(** A store given by its predecessor function, without content. *)
Definition graph (predecessors : ocispec.Descriptor -> list ocispec.Descriptor)
  : ReadOnlyGraphStorage :=
  {| Fetch _ := Ok [];
     Predecessors d := Ok (predecessors d);
     AsReferrerFinder := None |}.

Definition A : ocispec.Descriptor := desc "manifest" "sha256:a".
Definition B : ocispec.Descriptor := desc "manifest" "sha256:b".
Definition C : ocispec.Descriptor := desc "manifest" "sha256:c".

(** C refers to B, which refers to A: the chain of scenario S5. *)
Definition chain : ReadOnlyGraphStorage :=
  graph (fun d =>
    if (ocispec.Digest d =? "sha256:a")%string then [B]
    else if (ocispec.Digest d =? "sha256:b")%string then [C]
    else []).

(** A and B name each other as predecessor. *)
Definition cycle : ReadOnlyGraphStorage :=
  graph (fun d =>
    if (ocispec.Digest d =? "sha256:a")%string then [B]
    else if (ocispec.Digest d =? "sha256:b")%string then [A]
    else []).

(** B and C both refer to A and have no referrer themselves. *)
Definition fork : ReadOnlyGraphStorage :=
  graph (fun d =>
    if (ocispec.Digest d =? "sha256:a")%string then [B; C] else []).

Definition options (depth : Z) : ExtendedCopyGraphOptions :=
  {| CopyOptions := tt; Depth := depth; FindPredecessors := None |}.

(** A fetcher that has the same content for every descriptor, and a
    [FetchAll] that hands out what the fetcher returns. *)
Definition fetcher : content.Fetcher := {| content.Fetch _ := Ok [] |}.

Definition fetchAll (f : content.Fetcher) (d : ocispec.Descriptor) : result bytes :=
  content.Fetch f d.

(** A source in which the tag "latest" resolves to the end of the chain. *)
Definition tagged : ReadOnlyGraphTarget :=
  {| Storage := chain;
     Resolve reference :=
       if (reference =? "latest")%string then Ok A
       else Err (ErrOther "not found") |}.

(** A has one referrer: an OCI artifact manifest, or a legacy one. *)
Definition referrer : ocispec.Descriptor :=
  desc ocispec.MediaTypeArtifactManifest "sha256:r".
Definition legacyReferrer : ocispec.Descriptor :=
  desc artifactspec.MediaTypeArtifactManifest "sha256:r".

Definition referred (r : ocispec.Descriptor) : ReadOnlyGraphStorage :=
  graph (fun d => if (ocispec.Digest d =? "sha256:a")%string then [r] else []).

(** The same store, which also answers the referrers API with one page. *)
Definition finder (r : ocispec.Descriptor) : ReadOnlyGraphStorage :=
  {| Fetch _ := Ok [];
     Predecessors d := Ok [r];
     AsReferrerFinder :=
       Some {| registry.pages _ _ := ([[r]], None) |} |}.

(** A has two predecessors, of which only the first is a legacy artifact
    manifest. *)
Definition mixed : ReadOnlyGraphStorage :=
  graph (fun d =>
    if (ocispec.Digest d =? "sha256:a")%string then [legacyReferrer; B] else []).

(** Options in which a predecessor function is already installed. *)
Definition overridden : ExtendedCopyGraphOptions :=
  {| CopyOptions := tt; Depth := 0;
     FindPredecessors := Some defaultFindPredecessors |}.

Definition pattern : Regexp := "x".

(** A store that keeps what is pushed, a fixed clock, an encoder with a
    fixed output and a digest that is the same for every content. *)
#[local] Instance pusher : Pusher := {|
  Store := list (ocispec.Descriptor * bytes);
  Push s d b := (s ++ [(d, b)], None)
|}.

Definition emptyStore : Store := [] : list (ocispec.Descriptor * bytes).

#[local] Instance env : PackEnv := {|
  now := "2000-01-01T00:00:00Z";
  MarshalArtifact _ := Ok [];
  FromBytes _ := "sha256:0"
|}.

(** The options of Test_PackArtifact_InvalidDateTimeFormat. *)
Definition badCreated : pack.PackArtifactOptions :=
  {| pack.Subject := None;
     pack.ManifestAnnotations :=
       Some {[ ocispec.AnnotationArtifactCreated := "2000/01/01 00:00:00" ]} |}.

Definition image : ocispec.Descriptor :=
  desc ocispec.MediaTypeImageManifest "sha256:i".
Definition artifact : ocispec.Descriptor :=
  desc artifactspec.MediaTypeArtifactManifest "sha256:l".
End example.

(** * Properties *)

(** ** Successors *)

Section SuccessorsFacts.
Context {json : Json}.
Variable FetchAll : content.Fetcher -> ocispec.Descriptor -> result bytes.

Lemma fold_left_snoc_map {A B} (f : A -> B) (l : list A) (acc : list B) :
  fold_left (fun nodes x => nodes ++ [f x]) l acc = acc ++ map f l.
Proof.
  revert acc. induction l as [|x l IH]; intros acc; simpl.
  - by rewrite app_nil_r.
  - rewrite IH. by rewrite <- app_assoc.
Qed.

(** C5. For a descriptor whose media type is the docker or the OCI image
    manifest, whose content is fetched and decodes to [manifest],
    [Successors] returns the config descriptor first, followed by the
    layers in manifest order. *)
Theorem Successors_image_manifest fetcher node content manifest :
  ocispec.MediaType node = docker.MediaTypeManifest
  ∨ ocispec.MediaType node = ocispec.MediaTypeImageManifest ->
  FetchAll fetcher node = Ok content ->
  UnmarshalManifest content = Ok manifest ->
  content.Successors FetchAll fetcher node
  = Ok (ocispec.Config manifest :: ocispec.Layers manifest).
Proof.
  intros Hmt Hfetch Hjson. unfold content.Successors.
  assert ((ocispec.MediaType node =? docker.MediaTypeManifest)%string
          || (ocispec.MediaType node =? ocispec.MediaTypeImageManifest)%string
          = true) as ->.
  { destruct Hmt as [-> | ->]; [reflexivity|].
    apply orb_true_iff. right. apply String.eqb_refl. }
  rewrite Hfetch. simpl. rewrite Hjson. reflexivity.
Qed.

(** C6. For a descriptor whose media type is the legacy artifact manifest,
    whose content is fetched and decodes to [manifest], [Successors]
    returns the subject first, when there is one, followed by the blobs in
    order, each converted by [ArtifactToOCI] to the OCI descriptor
    shape. *)
Theorem Successors_legacy_artifact fetcher node content manifest :
  ocispec.MediaType node = artifactspec.MediaTypeArtifactManifest ->
  FetchAll fetcher node = Ok content ->
  UnmarshalLegacyManifest content = Ok manifest ->
  content.Successors FetchAll fetcher node
  = Ok (map descriptor.ArtifactToOCI
          (match artifactspec.Subject manifest with
           | Some subject => [subject]
           | None => []
           end ++ artifactspec.Blobs manifest)).
Proof.
  intros Hmt Hfetch Hjson. unfold content.Successors.
  rewrite Hmt. simpl. rewrite Hfetch. simpl. rewrite Hjson. simpl.
  rewrite fold_left_snoc_map.
  destruct (artifactspec.Subject manifest); reflexivity.
Qed.
End SuccessorsFacts.

Lemma Successors_image_manifest_witness :
  content.Successors (json := example.json)
    example.fetchAll example.fetcher example.image
  = Ok [example.config; example.layer1; example.layer2].
Proof.
  apply (Successors_image_manifest (json := example.json) example.fetchAll example.fetcher example.image []
           {| ocispec.Config := example.config;
              ocispec.Layers := [example.layer1; example.layer2] |}).
  - right. reflexivity.
  - reflexivity.
  - reflexivity.
Defined.

Lemma Successors_legacy_artifact_witness :
  content.Successors (json := example.json)
    example.fetchAll example.fetcher example.artifact
  = Ok [example.desc "subject" "sha256:s";
        example.desc "test" "sha256:1"; example.desc "test" "sha256:2"].
Proof.
  apply (Successors_legacy_artifact (json := example.json) example.fetchAll example.fetcher example.artifact []
           {| artifactspec.ManifestArtifactType := "x";
              artifactspec.Blobs := [example.legacy "test" "sha256:1";
                                     example.legacy "test" "sha256:2"];
              artifactspec.Subject := Some (example.legacy "subject" "sha256:s") |}).
  - reflexivity.
  - reflexivity.
  - reflexivity.
Defined.

(** ** The upward walk *)

Section WalkFacts.
Context {json : Json} {regexp : Regex}.
Context {destination : Destination} {copier : GraphCopier}.
Import oras storage.

Variable src : ReadOnlyGraphStorage.
Variable opts : ExtendedCopyGraphOptions.

Lemma pushPredecessors_spec vis current ps st :
  pushPredecessors vis current ps st
  = reverse (entry current <$> filter (fun p => descriptor.FromOCI p ∉ vis) ps) ++ st.
Proof.
  unfold pushPredecessors. revert st.
  induction ps as [|p ps IH]; intros st; simpl; [done|].
  rewrite IH. rewrite filter_cons.
  destruct (decide (descriptor.FromOCI p ∈ vis)) as [Hin|Hin].
  - rewrite decide_False; [done|]. by intros Hn.
  - rewrite decide_True; [|done].
    rewrite fmap_cons, reverse_cons, <- app_assoc. done.
Qed.

Lemma step_pop_visited w current rest :
  stack w = current :: rest ->
  descriptor.FromOCI (copyutil.Node current) ∈ visited w ->
  step src opts w
  = Next {| visited := visited w; roots := roots w; stack := rest; trace := trace w |}.
Proof.
  intros Hst Hin. unfold step. rewrite Hst. simpl.
  rewrite decide_True; done.
Qed.

(** Case analysis on one iteration, with the equations of each case. *)
Ltac step_cases w :=
  unfold step;
  let current := fresh "current" in
  let rest := fresh "rest" in
  let Hstack := fresh "Hstack" in
  let Hvis := fresh "Hvis" in
  let Hdepth := fresh "Hdepth" in
  let calls := fresh "calls" in
  let preds := fresh "preds" in
  let e := fresh "e" in
  let Hfind := fresh "Hfind" in
  let Hlen := fresh "Hlen" in
  destruct (stack w) as [|current rest] eqn:Hstack; simpl;
  [|destruct (decide (descriptor.FromOCI (copyutil.Node current) ∈ visited w))
      as [Hvis|Hvis]; simpl;
    [|destruct ((0 <? Depth opts) && (copyutil.Depth current =? Depth opts))
        eqn:Hdepth; simpl;
      [|destruct (findPredecessorsOf opts src (copyutil.Node current))
          as [calls [preds|e]] eqn:Hfind; simpl;
        [destruct (Z.of_nat (length preds) =? 0) eqn:Hlen; simpl|]]]].

Lemma loop_invariant (P : walk -> Prop) :
  invariant src opts P ->
  forall fuel w out, P w -> loop fuel src opts w = Some out ->
  exists w', P w' ∧ fst out = trace w'
             ∧ (snd out = Ok (roots w') ∨ exists e, snd out = Err e).
Proof.
  intros HP fuel. induction fuel as [|fuel IH]; intros w out Hw Hloop; [done|].
  simpl in Hloop. specialize (HP w Hw).
  destruct (step src opts w) as [w'|w'|w' e]; simpl in HP.
  - eauto.
  - injection Hloop as <-. exists w'. simpl. eauto.
  - injection Hloop as <-. exists w'. simpl. eauto.
Qed.

Lemma loop_more_fuel fuel fuel' w out :
  (fuel <= fuel')%nat -> loop fuel src opts w = Some out ->
  loop fuel' src opts w = Some out.
Proof.
  revert fuel' w. induction fuel as [|fuel IH]; intros fuel' w Hle Hloop; [done|].
  destruct fuel' as [|fuel']; [lia|]. simpl in *.
  destruct (step src opts w); [|done|done].
  apply IH; [lia|done].
Qed.

(** *** Every key is expanded at most once *)

Lemma invoked_app tr tr' : invoked (tr ++ tr') = invoked tr ++ invoked tr'.
Proof. apply omap_app. Qed.

Lemma discovered_app tr tr' : discovered (tr ++ tr') = discovered tr ++ discovered tr'.
Proof. apply omap_app. Qed.

Lemma expanded_once_invariant : invariant src opts expanded_once.
Proof.
  intros w [Hnd Hin]. step_cases w; unfold expanded_once; simpl;
    rewrite ?invoked_app; simpl; rewrite ?app_nil_r;
    try (split; [done|set_solver]).
  all: split; [|set_solver].
  all: rewrite fmap_app; apply NoDup_app; split; [done|];
    split; [|apply NoDup_singleton].
  all: intros k Hk Hk'; apply list_elem_of_fmap in Hk as (d & -> & Hd);
    apply Hin in Hd; apply list_elem_of_singleton in Hk';
    rewrite Hk' in Hd; done.
Qed.

(** *** Termination on a finite key space *)

Lemma unvisited_shrinks (U vis : gset descriptor.Descriptor) k :
  k ∈ U -> k ∉ vis -> (size (U ∖ ({[k]} ∪ vis)) < size (U ∖ vis))%nat.
Proof. intros HU Hvis. apply subset_size. set_solver. Qed.

Lemma loop_terminates U :
  closed_in src opts U ->
  forall n w,
    (size (U ∖ visited w) <= n)%nat ->
    (forall i, i ∈ stack w -> descriptor.FromOCI (copyutil.Node i) ∈ U) ->
    exists fuel out, loop fuel src opts w = Some out.
Proof.
  intros HU n. induction n as [n IHn] using lt_wf_ind. intros w.
  remember (stack w) as st eqn:Hst. revert w Hst.
  induction st as [|current rest IHst]; intros w Hst Hsize Hin.
  - exists 1%nat. eexists. simpl. unfold step. rewrite <- Hst. reflexivity.
  - symmetry in Hst.
    assert (descriptor.FromOCI (copyutil.Node current) ∈ U) as HcU.
    { apply Hin. set_solver. }
    assert (forall i, i ∈ rest -> descriptor.FromOCI (copyutil.Node i) ∈ U) as HrU.
    { intros i Hi. apply Hin. set_solver. }
    destruct (decide (descriptor.FromOCI (copyutil.Node current) ∈ visited w))
      as [Hvis|Hvis].
    + destruct (IHst {| visited := visited w; roots := roots w;
                        stack := rest; trace := trace w |})
        as (fuel & out & Hloop); [done|done|done|].
      exists (S fuel), out. simpl. by rewrite (step_pop_visited w current rest).
    + pose proof (unvisited_shrinks U (visited w) _ HcU Hvis) as Hlt.
      assert (forall w',
                 visited w' = {[descriptor.FromOCI (copyutil.Node current)]} ∪ visited w ->
                 (forall i, i ∈ stack w' -> descriptor.FromOCI (copyutil.Node i) ∈ U) ->
                 exists fuel out, loop fuel src opts w' = Some out) as Hrec.
      { intros w' Hv Hs.
        apply (IHn (size (U ∖ visited w'))); [rewrite Hv; lia|lia|done]. }
      assert (exists r, step src opts w = r
                        ∧ match r with
                          | Next w' => exists fuel out, loop fuel src opts w' = Some out
                          | _ => True
                          end) as (r & Hr & Hnext).
      { eexists. split; [reflexivity|].
        unfold step. rewrite Hst. simpl. rewrite decide_False; [|done].
        destruct ((0 <? Depth opts) && (copyutil.Depth current =? Depth opts)).
        - apply Hrec; simpl; done.
        - destruct (findPredecessorsOf opts src (copyutil.Node current))
            as [calls [preds|e]] eqn:Hfind; [|done].
          destruct (Z.of_nat (length preds) =? 0).
          + apply Hrec; simpl; done.
          + apply Hrec; simpl; [done|].
            intros i. rewrite pushPredecessors_spec.
            rewrite elem_of_app, elem_of_reverse, list_elem_of_fmap.
            intros [(p & -> & Hp)|Hi]; [|by apply HrU].
            apply list_elem_of_filter in Hp as [_ Hp]. simpl.
            by eapply HU. }
      destruct r as [w'|w'|w' e].
      * destruct Hnext as (fuel & out & Hloop).
        exists (S fuel), out. simpl. fold (step src opts w). by rewrite Hr.
      * exists 1%nat. eexists. simpl. fold (step src opts w). by rewrite Hr.
      * exists 1%nat. eexists. simpl. fold (step src opts w). by rewrite Hr.
Qed.

(** C4. Within one traversal the predecessor function is invoked at most
    once for every equivalence key, cycles included: an entry whose key
    was visited is skipped when it is popped, a predecessor whose key was
    visited is not pushed, and the traversal terminates when the keys the
    predecessor function can return lie in a finite set [U]. *)
Theorem findRoots_cycle_safe (U : gset descriptor.Descriptor) node :
  descriptor.FromOCI node ∈ U ->
  closed_in src opts U ->
  (exists fuel out, findRoots fuel src node opts = Some out)
  ∧ (forall fuel tr res,
       findRoots fuel src node opts = Some (tr, res) ->
       NoDup (descriptor.FromOCI <$> invoked tr))
  ∧ (forall w current rest,
       stack w = current :: rest ->
       descriptor.FromOCI (copyutil.Node current) ∈ visited w ->
       step src opts w
       = Next {| visited := visited w; roots := roots w;
                 stack := rest; trace := trace w |})
  ∧ (forall vis current ps st,
       pushPredecessors vis current ps st
       = reverse (entry current
                    <$> filter (fun p => descriptor.FromOCI p ∉ vis) ps) ++ st).
Proof.
  intros Hnode HU. split; [|split; [|split]].
  - apply (loop_terminates U HU (size (U ∖ visited (initial node)))); [lia|].
    intros i. simpl. unfold copyutil.Push. rewrite list_elem_of_singleton.
    by intros ->.
  - intros fuel tr res Hrun.
    destruct (loop_invariant expanded_once expanded_once_invariant
                fuel (initial node) (tr, res)) as (w' & [Hnd _] & Htr & _);
      [|done|].
    + split; simpl; [constructor|]. intros d Hd. by apply elem_of_nil in Hd.
    + simpl in Htr. by rewrite Htr.
  - apply step_pop_visited.
  - apply pushPredecessors_spec.
Qed.

(** *** The depth cap *)

Lemma int_wrap_small z : - 2 ^ 63 <= z <= max_int -> int_wrap z = z.
Proof.
  unfold int_wrap, max_int. intros Hz.
  rewrite Z.mod_small; lia.
Qed.

Lemma addRoot_fresh (k : descriptor.Descriptor) (v : ocispec.Descriptor)
    (m : gmap descriptor.Descriptor ocispec.Descriptor) :
  m !! k = None -> addRoot k v m = <[k := v]> m.
Proof. intros Hk. unfold addRoot. by rewrite Hk. Qed.

Lemma addRoot_lookup (k : descriptor.Descriptor) (v : ocispec.Descriptor)
    (m : gmap descriptor.Descriptor ocispec.Descriptor) k' r :
  addRoot k v m !! k' = Some r -> m !! k' = Some r ∨ (k' = k ∧ r = v ∧ m !! k = None).
Proof.
  unfold addRoot. destruct (m !! k) eqn:Hk; [by left|].
  rewrite lookup_insert. case_decide as Hkk.
  - intros [= <-]. right. by subst.
  - by left.
Qed.

Lemma addRoot_keeps (k : descriptor.Descriptor) (v : ocispec.Descriptor)
    (m : gmap descriptor.Descriptor ocispec.Descriptor) k' r :
  m !! k' = Some r -> addRoot k v m !! k' = Some r.
Proof.
  intros Hk'. unfold addRoot. destruct (m !! k) eqn:Hk; [done|].
  rewrite lookup_insert_ne; [done|]. intros ->. congruence.
Qed.

Lemma dom_addRoot (k : descriptor.Descriptor) (v : ocispec.Descriptor)
    (m : gmap descriptor.Descriptor ocispec.Descriptor) :
  dom (addRoot k v m) = ({[k]} ∪ dom m : gset descriptor.Descriptor).
Proof.
  unfold addRoot. destruct (m !! k) eqn:Hk.
  - assert (k ∈ dom m) by (apply elem_of_dom; eauto). set_solver.
  - apply dom_insert_L.
Qed.

Lemma within_cap_invariant node :
  0 < Depth opts <= max_int -> invariant src opts (within_cap src opts node).
Proof.
  intros Hk w [Hst Hroots].
  assert (forall current,
            0 <= copyutil.Depth current <= Depth opts ->
            hops src opts node (Z.to_nat (copyutil.Depth current)) (copyutil.Node current) ->
            forall key r,
              addRoot (descriptor.FromOCI (copyutil.Node current))
                (copyutil.Node current) (roots w) !! key = Some r ->
              exists n, Z.of_nat n <= Depth opts ∧ hops src opts node n r) as Hadd.
  { intros current Hd Hh key r Hr.
    apply addRoot_lookup in Hr as [Hr|(-> & -> & _)]; [by eapply Hroots|].
    exists (Z.to_nat (copyutil.Depth current)). split; [lia|done]. }
  step_cases w; unfold within_cap; simpl; [by rewrite Hstack|..].
  all: destruct (Hst current) as [Hd Hh]; [set_solver|].
  all: assert (forall i, i ∈ rest ->
                 0 <= copyutil.Depth i <= Depth opts
                 ∧ hops src opts node (Z.to_nat (copyutil.Depth i)) (copyutil.Node i))
         as Hrest by (intros i Hi; apply Hst; set_solver).
  - split; [done|done].
  - split; [done|]. by apply Hadd.
  - split; [done|]. by apply Hadd.
  - split; [|done].
    intros i. rewrite pushPredecessors_spec.
    rewrite elem_of_app, elem_of_reverse, list_elem_of_fmap.
    intros [(p & -> & Hp)|Hi]; [|by apply Hrest].
    apply list_elem_of_filter in Hp as [_ Hp]. simpl.
    rewrite andb_false_iff, Z.ltb_ge, Z.eqb_neq in Hdepth.
    rewrite int_wrap_small by (unfold max_int in *; lia).
    split; [lia|].
    replace (Z.to_nat (copyutil.Depth current + 1))
      with (S (Z.to_nat (copyutil.Depth current))) by lia.
    eapply hops_up; [done|]. by exists calls, preds.
  - split; [done|done].
Qed.

Lemma cap_recorded_invariant :
  0 < Depth opts -> invariant src opts (cap_recorded opts).
Proof.
  intros Hk w (Hdom & Hvisit & Hinv & Hcap).
  step_cases w; unfold cap_recorded; simpl; [done|done|..].
  all: rewrite ?dom_addRoot, ?invoked_app; simpl; rewrite ?app_nil_r.
  all: assert (roots w !! descriptor.FromOCI (copyutil.Node current) = None)
         as Hfresh by (apply not_elem_of_dom; set_solver).
  all: assert (forall d', d' ∈ invoked (trace w) ->
                 descriptor.FromOCI d' ≠ descriptor.FromOCI (copyutil.Node current))
         as Hnew by (intros d' Hd' Heq; apply Hinv in Hd'; by rewrite Heq in Hd').
  all: assert (forall d depth, EvVisit d depth ∈ trace w ->
                 descriptor.FromOCI (copyutil.Node current) ≠ descriptor.FromOCI d)
         as Hold by (intros d depth Hd Heq; apply Hvisit in Hd; by rewrite <- Heq in Hd).
  all: split; [set_solver|]; split;
    [intros d depth Hd; set_unfold in Hd; destruct_or!; simplify_eq;
     [apply Hvisit in Hd; set_solver|set_solver]|].
  all: split; [intros d Hd; set_unfold in Hd; destruct_or?; simplify_eq;
               try (apply Hinv in Hd); set_solver|].
  all: intros d Hd; set_unfold in Hd; destruct_or!; simplify_eq.
  - (* cap hit, earlier visit *)
    destruct (Hcap d Hd) as [Hr Hne]. split; [by apply addRoot_keeps|done].
  - (* cap hit, this visit *)
    split; [|done]. rewrite addRoot_fresh by done. apply lookup_insert_eq.
  - (* no predecessor, earlier visit *)
    destruct (Hcap d Hd) as [Hr Hne]. split; [by apply addRoot_keeps|].
    intros d' Hd'. set_unfold in Hd'.
    destruct Hd' as [Hd'|[->|[]]]; [by apply Hne|by eapply Hold].
  - (* no predecessor, this visit: the cap was not hit *)
    rewrite andb_false_iff, Z.ltb_ge, Z.eqb_neq in Hdepth. lia.
  - destruct (Hcap d Hd) as [Hr Hne]. split; [done|].
    intros d' Hd'. set_unfold in Hd'.
    destruct Hd' as [Hd'|[->|[]]]; [by apply Hne|by eapply Hold].
  - rewrite andb_false_iff, Z.ltb_ge, Z.eqb_neq in Hdepth. lia.
  - destruct (Hcap d Hd) as [Hr Hne]. split; [done|].
    intros d' Hd'. set_unfold in Hd'.
    destruct Hd' as [Hd'|[->|[]]]; [by apply Hne|by eapply Hold].
  - rewrite andb_false_iff, Z.ltb_ge, Z.eqb_neq in Hdepth. lia.
Qed.

(** C3. With [Depth = k > 0], a node that the walk visits at recorded
    depth [k] is recorded as a root and the predecessor function is never
    invoked for its key; and every root the walk returns is at most [k]
    upward hops away from the initial node. *)
Theorem findRoots_depth_cap node fuel tr rs :
  0 < Depth opts <= max_int ->
  findRoots fuel src node opts = Some (tr, Ok rs) ->
  (forall d, EvVisit d (Depth opts) ∈ tr ->
     rs !! descriptor.FromOCI d = Some d
     ∧ forall d', d' ∈ invoked tr ->
         descriptor.FromOCI d' ≠ descriptor.FromOCI d)
  ∧ (forall key r, rs !! key = Some r ->
       exists n, Z.of_nat n <= Depth opts ∧ hops src opts node n r).
Proof.
  intros Hk Hrun. split.
  - destruct (loop_invariant (cap_recorded opts) (cap_recorded_invariant (proj1 Hk))
                fuel (initial node) (tr, Ok rs))
      as (w' & (_ & _ & _ & Hcap) & Htr & [Hrs|[e He]]); [|done| |done].
    + unfold cap_recorded. simpl. set_solver.
    + simpl in *. injection Hrs as ->. subst tr. done.
  - destruct (loop_invariant (within_cap src opts node) (within_cap_invariant node Hk)
                fuel (initial node) (tr, Ok rs))
      as (w' & [_ Hroots] & Htr & [Hrs|[e He]]); [|done| |done].
    + split; simpl.
      * intros i. unfold copyutil.Push. rewrite list_elem_of_singleton.
        intros ->. simpl. split; [lia|constructor].
      * intros key r. by rewrite lookup_empty.
    + simpl in *. injection Hrs as ->. done.
Qed.

(** *** The roots and the order of their discovery *)

Lemma first_writer_app key l l' :
  first_writer key (l ++ l')
  = match first_writer key l with
    | Some v => Some v
    | None => first_writer key l'
    end.
Proof.
  induction l as [|[k v] l IH]; simpl; [done|].
  by destruct (decide (k = key)).
Qed.

Lemma first_wins_invariant : invariant src opts first_wins.
Proof.
  intros w (Hdom & Hfirst & Hperm).
  assert (forall key val,
            key ∉ visited w ->
            dom (addRoot key val (roots w)) ⊆ {[key]} ∪ visited w
            ∧ (forall key', addRoot key val (roots w) !! key'
                            = first_writer key' (discovered (trace w) ++ [(key, val)]))
            ∧ map_to_list (addRoot key val (roots w))
              ≡ₚ discovered (trace w) ++ [(key, val)]) as Hadd.
  { intros key val Hvis.
    assert (roots w !! key = None) as Hfresh by (apply not_elem_of_dom; set_solver).
    rewrite dom_addRoot. rewrite addRoot_fresh by done.
    split; [set_solver|]. split.
    - intros key'. rewrite first_writer_app, <- Hfirst. simpl.
      rewrite lookup_insert. case_decide as Hkey.
      + subst key'. by rewrite Hfresh.
      + by destruct (roots w !! key').
    - rewrite map_to_list_insert by done. rewrite Hperm.
      apply Permutation_cons_append. }
  step_cases w; unfold first_wins; simpl; [done|done|..].
  all: rewrite ?discovered_app; simpl; rewrite ?app_nil_r.
  - by apply Hadd.
  - by apply Hadd.
  - split; [set_solver|done].
  - split; [set_solver|done].
Qed.
End WalkFacts.

Lemma findRoots_cycle_safe_witness :
  let U : gset descriptor.Descriptor :=
    {[descriptor.FromOCI example.A; descriptor.FromOCI example.B]} in
  (exists fuel out,
      oras.findRoots fuel example.cycle example.A (example.options 0) = Some out)
  ∧ (forall fuel tr res,
       oras.findRoots fuel example.cycle example.A (example.options 0) = Some (tr, res) ->
       NoDup (descriptor.FromOCI <$> oras.invoked tr)).
Proof.
  intros U.
  destruct (findRoots_cycle_safe example.cycle (example.options 0) U example.A)
    as (Hterm & Honce & _).
  - unfold U. set_solver.
  - intros d calls ps p. unfold oras.findPredecessorsOf, oras.defaultFindPredecessors,
      call. simpl.
    destruct (String.eqb (ocispec.Digest d) "sha256:a");
      [|destruct (String.eqb (ocispec.Digest d) "sha256:b")].
    all: intros [= _ <-] Hp; unfold U; set_solver.
  - split; [exact Hterm|exact Honce].
Defined.

Lemma findRoots_depth_cap_witness :
  exists tr rs,
    oras.findRoots 10 example.chain example.A (example.options 1) = Some (tr, Ok rs)
    ∧ (forall d, oras.EvVisit d 1 ∈ tr ->
         rs !! descriptor.FromOCI d = Some d
         ∧ forall d', d' ∈ oras.invoked tr ->
             descriptor.FromOCI d' ≠ descriptor.FromOCI d)
    ∧ (forall key r, rs !! key = Some r ->
         exists n, Z.of_nat n <= 1
                   ∧ oras.hops example.chain (example.options 1) example.A n r).
Proof.
  destruct (oras.findRoots 10 example.chain example.A (example.options 1))
    as [[tr [rs|e]]|] eqn:Hrun;
    [|vm_compute in Hrun; discriminate..].
  exists tr, rs. split; [reflexivity|].
  apply (findRoots_depth_cap example.chain (example.options 1) example.A 10 tr rs).
  - simpl. unfold max_int. lia.
  - exact Hrun.
Defined.

(** ** ExtendedCopyGraph *)

Section CopyFacts.
Context {json : Json} {regexp : Regex}.
Context {destination : Destination} {copier : GraphCopier}.
Context {range : MapRange}.
Import oras storage.

Lemma copyRoots_prefix src opts rs dst cs dst' r :
  copyRoots src opts rs dst = (cs, dst', r) ->
  cs `prefix_of` rs ∧ (r = None -> cs = rs).
Proof.
  revert dst cs dst' r. induction rs as [|root rs IH]; intros dst cs dst' r; simpl.
  - intros [= <- <- <-]. done.
  - destruct (CopyGraph src dst root (CopyOptions opts)) as [dst1 [e|]].
    + intros [= <- <- <-]. split; [|done]. by exists rs.
    + destruct (copyRoots src opts rs dst1) as [[cs1 dst2] r1] eqn:Hrest.
      intros [= <- <- <-]. destruct (IH _ _ _ _ Hrest) as [Hpre Hall].
      split; [by apply prefix_cons|]. intros Hr. by rewrite Hall.
Qed.

(** C1, as the code has it. The roots are recorded first writer wins, and
    the discoveries have pairwise distinct keys; the map keeps no order,
    and [ExtendedCopyGraph] copies the roots in the order in which the
    [range] statement enumerates the map: what it copies is, up to order,
    part of the discoveries, and all of them when no copy fails. *)
Theorem ExtendedCopyGraph_copies_roots fuel src dst node opts run :
  ExtendedCopyGraph fuel src dst node opts = Some run ->
  let found := discovered (walked run) in
  NoDup found.*1
  ∧ (forall rs, findRoots fuel src node opts = Some (walked run, Ok rs) ->
       forall key, rs !! key = first_writer key found)
  ∧ copied run ⊆+ found.*2
  ∧ (failure run = None -> copied run ≡ₚ found.*2).
Proof.
  unfold ExtendedCopyGraph.
  destruct (findRoots fuel src node opts) as [[tr res]|] eqn:Hfind; [|done].
  destruct (loop_invariant src opts first_wins (first_wins_invariant src opts)
              fuel (initial node) (tr, res)) as (w' & (_ & Hfirst & Hperm) & Htr & Hres);
    [|done|].
  { unfold first_wins. simpl. split; [set_solver|]. split; [done|].
    by rewrite map_to_list_empty. }
  simpl in Htr, Hres. subst tr.
  assert (NoDup (discovered (trace w')).*1) as Hnd.
  { rewrite <- Hperm. apply NoDup_fst_map_to_list. }
  destruct res as [rs|e].
  - destruct Hres as [[= ->]|[e [=]]].
    destruct (copyRoots src opts (map snd (map_range (roots w'))) dst)
      as [[cs dst'] r] eqn:Hcopy.
    intros [= <-]. simpl.
    apply copyRoots_prefix in Hcopy as [Hpre Hall].
    assert (map snd (map_range (roots w')) ≡ₚ (discovered (trace w')).*2) as Hsame.
    { rewrite map_range_perm, Hperm. done. }
    split; [done|]. split; [|split].
    + intros rs [= <-]. done.
    + rewrite <- Hsame. destruct Hpre as [k ->]. by apply submseteq_inserts_r.
    + intros Hr. by rewrite Hall.
  - intros [= <-]. simpl. split; [done|]. split; [done|].
    split; [apply submseteq_nil_l|done].
Qed.

(** C10. With a source and a destination that are not nil and a blank
    destination reference, [ExtendedCopy] behaves as with the source
    reference for destination reference: when [srcRef] resolves to [node],
    the graph copy succeeds and the tagging succeeds, the destination left is
    the one in which [node] was tagged under [srcRef], and [node] is
    returned. *)
Theorem ExtendedCopy_blank_reference fuel (src : ReadOnlyGraphTarget) srcRef dst
    opts node run dst' :
  Resolve src srcRef = Ok node ->
  ExtendedCopyGraph fuel src dst node (GraphOptions opts) = Some run ->
  failure run = None ->
  Tag (after run) node srcRef = (dst', None) ->
  ExtendedCopy fuel (Some src) srcRef (Some dst) "" opts = Some (Some dst', Ok node)
  ∧ ExtendedCopy fuel (Some src) srcRef (Some dst) "" opts
    = ExtendedCopy fuel (Some src) srcRef (Some dst) srcRef opts.
Proof.
  intros Hresolve Hcopy Hok Htag. split.
  - unfold ExtendedCopy. simpl. rewrite Hresolve, Hcopy, Hok, Htag. reflexivity.
  - unfold ExtendedCopy. simpl.
    destruct (srcRef =? "")%string eqn:Hblank; [|reflexivity].
    apply String.eqb_eq in Hblank. subst srcRef. reflexivity.
Qed.
End CopyFacts.

Lemma ExtendedCopyGraph_copies_roots_witness :
  exists run,
    oras.ExtendedCopyGraph (destination := example.destination)
      (copier := example.copier) (range := example.backwards) 10
      example.fork example.empty example.A (example.options 0) = Some run
    ∧ NoDup (oras.discovered (oras.walked run)).*1
    ∧ oras.copied run ⊆+ (oras.discovered (oras.walked run)).*2
    ∧ (oras.failure run = None ->
       oras.copied run ≡ₚ (oras.discovered (oras.walked run)).*2).
Proof.
  destruct (oras.ExtendedCopyGraph (destination := example.destination)
      (copier := example.copier) (range := example.backwards) 10
              example.fork example.empty example.A (example.options 0))
    as [run|] eqn:Hrun; [|vm_compute in Hrun; discriminate].
  exists run. split; [reflexivity|].
  destruct (ExtendedCopyGraph_copies_roots (destination := example.destination)
              (copier := example.copier) (range := example.backwards) 10
              example.fork example.empty example.A (example.options 0) run Hrun)
    as (Hnd & _ & Hsub & Hall).
  split; [exact Hnd|]. split; [exact Hsub|exact Hall].
Defined.

(** C1, as the specification has it, fails: B and C both refer to A; the
    walk discovers the root C before the root B, and a [range] that
    enumerates the map backwards copies B before C. *)
Lemma copy_order_differs_from_discovery :
  oras.copied <$> oras.ExtendedCopyGraph (destination := example.destination)
      (copier := example.copier) (range := example.backwards) 10
                    example.fork example.empty example.A (example.options 0)
  = Some [example.B; example.C]
  ∧ (fun run => (oras.discovered (oras.walked run)).*2)
      <$> oras.ExtendedCopyGraph (destination := example.destination)
      (copier := example.copier) (range := example.backwards) 10
            example.fork example.empty example.A (example.options 0)
    = Some [example.C; example.B].
Proof. split; vm_compute; reflexivity. Qed.

Lemma ExtendedCopy_blank_reference_witness :
  exists dst',
    oras.ExtendedCopy (destination := example.destination)
      (copier := example.copier) (range := example.forwards) 10
      (Some example.tagged) "latest" (Some example.empty) ""
      {| oras.GraphOptions := example.options 0 |}
    = Some (Some dst', Ok example.A)
    ∧ example.tags dst' !! "latest" = Some example.A.
Proof.
  destruct (oras.ExtendedCopyGraph (destination := example.destination)
              (copier := example.copier) (range := example.forwards) 10
              (storage.Storage example.tagged) example.empty example.A
              (example.options 0))
    as [run|] eqn:Hrun; [|vm_compute in Hrun; discriminate].
  assert (oras.failure run = None) as Hok.
  { pose proof Hrun as Heval. vm_compute in Heval.
    injection Heval as <-. reflexivity. }
  exists {| example.tags := <["latest" := example.A]> (example.tags (oras.after run));
            example.received := example.received (oras.after run) |}.
  split.
  - apply (ExtendedCopy_blank_reference (destination := example.destination)
             (copier := example.copier) (range := example.forwards) 10
             example.tagged "latest" example.empty
             {| oras.GraphOptions := example.options 0 |} example.A run).
    + reflexivity.
    + exact Hrun.
    + exact Hok.
    + reflexivity.
  - simpl. apply lookup_insert_eq.
Defined.

(** ** The filters *)

Section FilterFacts.
Context {json : Json} {regexp : Regex}.
Context {destination : Destination} {copier : GraphCopier}.
Import oras storage.

Lemma keptByType_spec src re p :
  keptByType src re p = true
  <-> ocispec.MediaType p = artifactspec.MediaTypeArtifactManifest
      ∧ exists content manifest,
          Fetch src p = Ok content
          ∧ DecodeLegacyManifest content = Ok manifest
          ∧ MatchString re (artifactspec.ManifestArtifactType manifest) = true.
Proof.
  unfold keptByType, isLegacyArtifact. rewrite andb_true_iff, String.eqb_eq.
  split.
  - intros [Hmt Hkept]. split; [done|].
    destruct (Fetch src p) as [content|]; [|done].
    destruct (DecodeLegacyManifest content) as [manifest|] eqn:Hdec; [|done].
    by exists content, manifest.
  - intros [Hmt (content & manifest & -> & -> & Hm)]. done.
Qed.

(** The loop of [FilterArtifactType] fetches the legacy artifact manifests,
    in order, and nothing else. *)
Lemma filterArtifactTypeLoop_calls src re ps acc :
  exists n,
    (filterArtifactTypeLoop src re ps acc).1
    = CallFetch <$> take n (List.filter isLegacyArtifact ps).
Proof.
  revert acc. induction ps as [|p ps IH]; intros acc; simpl.
  - by exists O.
  - unfold isLegacyArtifact at 1.
    destruct (ocispec.MediaType p =? artifactspec.MediaTypeArtifactManifest)%string.
    + unfold bind, call, lift. destruct (Fetch src p) as [content|e].
      * destruct (DecodeLegacyManifest content) as [manifest|e]; simpl.
        -- match goal with |- context [filterArtifactTypeLoop src re ps ?a] =>
             destruct (IH a) as [n Hn];
             destruct (filterArtifactTypeLoop src re ps a) as [l r] end.
           simpl in *. exists (S n). simpl. by rewrite Hn.
        -- by exists 1%nat.
      * by exists 1%nat.
    + apply IH.
Qed.

Lemma filterArtifactTypeLoop_total src re ps acc :
  Forall (fun p => isLegacyArtifact p = true -> decodable src p) ps ->
  filterArtifactTypeLoop src re ps acc
  = (CallFetch <$> List.filter isLegacyArtifact ps,
     Ok (acc ++ List.filter (keptByType src re) ps)).
Proof.
  intros Hall. revert acc.
  induction Hall as [|p ps Hp Hall IH]; intros acc; simpl.
  - by rewrite app_nil_r.
  - unfold keptByType, isLegacyArtifact in *.
    destruct (ocispec.MediaType p =? artifactspec.MediaTypeArtifactManifest)%string;
      simpl.
    + destruct Hp as (content & manifest & Hfetch & Hdec); [done|].
      unfold bind, call, lift. rewrite Hfetch, Hdec. simpl. rewrite IH. simpl.
      destruct (MatchString re (artifactspec.ManifestArtifactType manifest)); simpl.
      * by rewrite <- app_assoc.
      * done.
    + apply IH.
Qed.

Lemma filterArtifactTypeLoop_ok src re ps acc calls out :
  filterArtifactTypeLoop src re ps acc = (calls, Ok out) ->
  Forall (fun p => isLegacyArtifact p = true -> decodable src p) ps.
Proof.
  revert acc calls. induction ps as [|p ps IH]; intros acc calls; simpl; [done|].
  unfold isLegacyArtifact at 1.
  destruct (ocispec.MediaType p =? artifactspec.MediaTypeArtifactManifest)%string
    eqn:Hmt.
  - unfold bind, call, lift. destruct (Fetch src p) as [content|e] eqn:Hfetch; [|done].
    destruct (DecodeLegacyManifest content) as [manifest|e] eqn:Hdec; [|done].
    simpl.
    match goal with |- context [filterArtifactTypeLoop src re ps ?a] =>
      destruct (filterArtifactTypeLoop src re ps a) as [l r] eqn:Hrest end.
    intros [= <- ->]. constructor; [|by eapply IH].
    intros _. by exists content, manifest.
  - intros Hrest. constructor; [|by eapply IH].
    unfold isLegacyArtifact. by rewrite Hmt.
Qed.

(** The referrers fast path: one call of the referrers API, and the
    referrers of all pages that match, in page order. *)
Lemma findReferrersAndFilter_spec rf desc re :
  findReferrersAndFilter rf desc re
  = ([CallReferrers desc ""],
     match registry.pages rf desc "" with
     | (ps, None) => Ok (matchingReferrers re ps)
     | (_, Some e) => Err e
     end).
Proof.
  unfold findReferrersAndFilter, registry.Referrers, matchingReferrers.
  destruct (registry.pages rf desc "") as [ps final].
  set (keep := fun predecessors referrer =>
                 if MatchString re (ocispec.ArtifactType referrer)
                 then predecessors ++ [referrer] else predecessors).
  assert (forall page acc,
            fold_left keep page acc
            = acc ++ List.filter (fun r => MatchString re (ocispec.ArtifactType r)) page)
    as Hpage.
  { induction page as [|r page IH]; intros acc; simpl; [by rewrite app_nil_r|].
    rewrite IH. unfold keep.
    destruct (MatchString re (ocispec.ArtifactType r)); [|done].
    by rewrite <- app_assoc. }
  assert (forall acc,
            registry.feed (fun referrers predecessors =>
                             (fold_left keep referrers predecessors, @None error))
              ps acc
            = (acc ++ List.filter (fun r => MatchString re (ocispec.ArtifactType r))
                        (concat ps), None)) as Hfeed.
  { induction ps as [|page ps IH]; intros acc; simpl; [by rewrite app_nil_r|].
    rewrite IH, Hpage, List.filter_app. by rewrite <- app_assoc. }
  rewrite Hfeed. simpl. by destruct final.
Qed.

(** C7. [FilterArtifactType] with a regex installs a function that takes
    the referrers fast path exactly when no predecessor function was
    installed before and the source is a referrer finder; a function
    installed before is wrapped, and then the filter itself never calls the
    referrers API, whether or not the source has it. *)
Theorem FilterArtifactType_fast_path re opts src desc :
  (forall fp, FindPredecessors opts = Some fp ->
     forall c, c ∈ (fp src desc).1 -> isReferrersCall c = false) ->
  exists f',
    FindPredecessors (FilterArtifactType (Some re) opts) = Some f'
    ∧ ((exists c, c ∈ (f' src desc).1 ∧ isReferrersCall c = true)
       <-> FindPredecessors opts = None ∧ is_Some (AsReferrerFinder src))
    ∧ (forall rf,
         FindPredecessors opts = None -> AsReferrerFinder src = Some rf ->
         f' src desc = findReferrersAndFilter rf desc re)
    ∧ (forall fp,
         FindPredecessors opts = Some fp ->
         f' src desc
         = (let* predecessors := fp src desc in
            filterArtifactTypeLoop src re predecessors [])).
Proof.
  intros Hfp. eexists. split; [reflexivity|]. simpl.
  assert (forall ps acc c,
            c ∈ (filterArtifactTypeLoop src re ps acc).1 -> isReferrersCall c = false)
    as Hloop.
  { intros ps acc c. destruct (filterArtifactTypeLoop_calls src re ps acc) as [n ->].
    intros Hc. apply list_elem_of_fmap in Hc as (p & -> & _). done. }
  split; [|split].
  - destruct (FindPredecessors opts) as [fp|] eqn:Hopts.
    + split; [|by intros [[=] _]].
      intros (c & Hc & Href). exfalso.
      unfold bind in Hc. destruct (fp src desc) as [l [preds|e]] eqn:Hinner.
      * destruct (filterArtifactTypeLoop src re preds []) as [l' r] eqn:Hrest.
        simpl in Hc. apply elem_of_app in Hc as [Hc|Hc].
        -- rewrite (Hfp fp eq_refl c) in Href; [done|]. by rewrite Hinner.
        -- rewrite (Hloop preds [] c) in Href; [done|]. by rewrite Hrest.
      * rewrite (Hfp fp eq_refl c) in Href; [done|]. by rewrite Hinner.
    + destruct (AsReferrerFinder src) as [rf|] eqn:Hrf.
      * split; [done|]. intros _. rewrite findReferrersAndFilter_spec. simpl.
        exists (CallReferrers desc ""). split; [set_solver|done].
      * split; [|by intros [_ [? [=]]]].
        intros (c & Hc & Href). exfalso.
        unfold bind, call in Hc. destruct (Predecessors src desc) as [preds|e].
        -- destruct (filterArtifactTypeLoop src re preds []) as [l' r] eqn:Hrest.
           simpl in Hc. apply elem_of_cons in Hc as [->|Hc]; [done|].
           rewrite (Hloop preds [] c) in Href; [done|]. by rewrite Hrest.
        -- simpl in Hc. apply list_elem_of_singleton in Hc as ->. done.
  - intros rf -> ->. reflexivity.
  - intros fp ->. reflexivity.
Qed.

(** C8. On the wrapped path of [FilterArtifactType], the predecessors
    returned are those of the wrapped function that are legacy artifact
    manifests whose fetched manifest has a matching artifact type, in the
    same order; a predecessor of any other media type is dropped. The
    function succeeds whenever the wrapped one does and the legacy artifact
    manifests among its predecessors can be fetched and decoded. *)
Theorem FilterArtifactType_wrapped re opts src desc :
  FindPredecessors opts ≠ None ∨ AsReferrerFinder src = None ->
  exists f',
    FindPredecessors (FilterArtifactType (Some re) opts) = Some f'
    ∧ (forall calls filtered,
         f' src desc = (calls, Ok filtered) ->
         exists calls0 preds,
           findPredecessorsOf opts src desc = (calls0, Ok preds)
           ∧ filtered = List.filter (keptByType src re) preds
           ∧ (forall p,
                p ∈ filtered
                <-> p ∈ preds
                    ∧ ocispec.MediaType p = artifactspec.MediaTypeArtifactManifest
                    ∧ exists content manifest,
                        Fetch src p = Ok content
                        ∧ DecodeLegacyManifest content = Ok manifest
                        ∧ MatchString re (artifactspec.ManifestArtifactType manifest)
                          = true)
           ∧ (forall p,
                ocispec.MediaType p ≠ artifactspec.MediaTypeArtifactManifest ->
                p ∉ filtered))
    ∧ (forall calls0 preds,
         findPredecessorsOf opts src desc = (calls0, Ok preds) ->
         Forall (fun p => isLegacyArtifact p = true -> decodable src p) preds ->
         f' src desc
         = (calls0 ++ (CallFetch <$> List.filter isLegacyArtifact preds),
            Ok (List.filter (keptByType src re) preds))).
Proof.
  intros Hwrapped. eexists. split; [reflexivity|]. cbv beta.
  assert ((match FindPredecessors opts with
           | Some fp =>
               let* predecessors := fp src desc in
               filterArtifactTypeLoop src re predecessors []
           | None =>
               match AsReferrerFinder src with
               | Some rf => findReferrersAndFilter rf desc re
               | None =>
                   let* predecessors :=
                     call (CallPredecessors desc) (Predecessors src desc) in
                   filterArtifactTypeLoop src re predecessors []
               end
           end)
          = (let* predecessors := findPredecessorsOf opts src desc in
             filterArtifactTypeLoop src re predecessors [])) as ->.
  { unfold findPredecessorsOf, defaultFindPredecessors.
    destruct (FindPredecessors opts) as [fp|]; [done|].
    destruct Hwrapped as [?| ->]; done. }
  assert (forall preds p,
            p ∈ List.filter (keptByType src re) preds
            <-> p ∈ preds
                ∧ ocispec.MediaType p = artifactspec.MediaTypeArtifactManifest
                ∧ exists content manifest,
                    Fetch src p = Ok content
                    ∧ DecodeLegacyManifest content = Ok manifest
                    ∧ MatchString re (artifactspec.ManifestArtifactType manifest) = true)
    as Hmem.
  { intros preds p. rewrite list_elem_of_In, List.filter_In, <- list_elem_of_In.
    by rewrite keptByType_spec. }
  split.
  - intros calls filtered. unfold bind.
    destruct (findPredecessorsOf opts src desc) as [calls0 [preds|e]]; [|done].
    destruct (filterArtifactTypeLoop src re preds []) as [l r] eqn:Hloop.
    intros [= <- ->].
    pose proof (filterArtifactTypeLoop_ok _ _ _ _ _ _ Hloop) as Hall.
    rewrite (filterArtifactTypeLoop_total _ _ _ [] Hall) in Hloop.
    injection Hloop as <- <-. simpl.
    exists calls0, preds. split; [done|]. split; [done|]. split; [apply Hmem|].
    intros p Hmt Hp. apply Hmem in Hp as (_ & Hp & _). done.
  - intros calls0 preds Hinner Hall. unfold bind. rewrite Hinner.
    by rewrite (filterArtifactTypeLoop_total _ _ _ [] Hall).
Qed.

(** *** FilterAnnotation *)

Lemma graftAnnotations_fetched src p content annotations :
  ocispec.Annotations p = None ->
  annotationFetched (ocispec.MediaType p) = true ->
  Fetch src p = Ok content ->
  DecodeAnnotations content = Ok annotations ->
  graftAnnotations src p
  = ([CallFetch p], Ok (ocispec.withAnnotations p (Some (default ∅ annotations)))).
Proof.
  intros Hnil Hmt Hfetch Hdec. unfold graftAnnotations, bind, call, lift.
  rewrite Hnil, Hmt, Hfetch, Hdec. by destruct annotations.
Qed.

Lemma filterAnnotationLoop_ok src key regex ps acc calls out :
  filterAnnotationLoop src key regex ps acc = (calls, Ok out) ->
  exists ps',
    Forall2 (fun p p' => exists c, graftAnnotations src p = (c, Ok p')) ps ps'
    ∧ out = acc ++ List.filter (annotationMatches key regex) ps'.
Proof.
  revert acc calls. induction ps as [|p ps IH]; intros acc calls; simpl.
  - intros [= <- <-]. exists []. split; [constructor|by rewrite app_nil_r].
  - unfold bind at 1. destruct (graftAnnotations src p) as [c [p'|e]] eqn:Hgraft; [|done].
    match goal with |- context [filterAnnotationLoop src key regex ps ?a] =>
      destruct (filterAnnotationLoop src key regex ps a) as [l r] eqn:Hrest end.
    intros [= <- ->]. apply IH in Hrest as (ps' & Hall & ->).
    exists (p' :: ps'). split; [constructor; eauto|]. simpl.
    destruct (annotationMatches key regex p'); [|done]. by rewrite <- app_assoc.
Qed.

(** C2, where the code departs from it. A predecessor whose media type is
    the OCI artifact manifest and whose descriptor has nil annotations is not
    fetched: its descriptor is left as it is, and the loop of
    [FilterAnnotation] drops it, whatever its manifest says. *)
Theorem FilterAnnotation_skips_oci_artifact key regex src p rest acc :
  ocispec.MediaType p = ocispec.MediaTypeArtifactManifest ->
  ocispec.Annotations p = None ->
  graftAnnotations src p = ([], Ok p)
  ∧ filterAnnotationLoop src key regex (p :: rest) acc
    = filterAnnotationLoop src key regex rest acc.
Proof.
  intros Hmt Hnil.
  assert (graftAnnotations src p = ([], Ok p)) as Hgraft.
  { unfold graftAnnotations. rewrite Hnil, Hmt. reflexivity. }
  split; [done|]. simpl. rewrite Hgraft. unfold bind, annotationMatches.
  rewrite Hnil. by destruct (filterAnnotationLoop src key regex rest acc).
Qed.
End FilterFacts.

Lemma FilterArtifactType_fast_path_witness :
  exists f',
    oras.FindPredecessors
      (oras.FilterArtifactType (json := example.json) (Some example.pattern)
         example.overridden) = Some f'
    ∧ f' (example.finder example.legacyReferrer) example.A
      = ([CallPredecessors example.A; CallFetch example.legacyReferrer],
         Ok [example.legacyReferrer])
    ∧ ~ (exists c, c ∈ (f' (example.finder example.legacyReferrer) example.A).1
                   ∧ oras.isReferrersCall c = true).
Proof.
  destruct (FilterArtifactType_fast_path (json := example.json) example.pattern
              example.overridden (example.finder example.legacyReferrer) example.A)
    as (f' & Hf & Hiff & _ & Hwrap).
  - intros fp [= <-] c Hc. simpl in Hc.
    apply list_elem_of_singleton in Hc. subst c. reflexivity.
  - exists f'. split; [exact Hf|]. split.
    + rewrite (Hwrap _ eq_refl). reflexivity.
    + intros Hex. apply Hiff in Hex as [Hnone _]. discriminate Hnone.
Defined.

Lemma FilterArtifactType_wrapped_witness :
  exists f',
    oras.FindPredecessors
      (oras.FilterArtifactType (json := example.json) (Some example.pattern)
         (example.options 0)) = Some f'
    ∧ f' example.mixed example.A
      = ([CallPredecessors example.A; CallFetch example.legacyReferrer],
         Ok [example.legacyReferrer]).
Proof.
  destruct (FilterArtifactType_wrapped (json := example.json) example.pattern
              (example.options 0) example.mixed example.A)
    as (f' & Hf & _ & Htotal).
  - right. reflexivity.
  - exists f'. split; [exact Hf|].
    rewrite (Htotal [CallPredecessors example.A] [example.legacyReferrer; example.B]).
    + reflexivity.
    + reflexivity.
    + repeat constructor.
      * intros _. eexists. eexists. split; reflexivity.
      * intros Hlegacy. discriminate Hlegacy.
Defined.

Lemma FilterAnnotation_skips_oci_artifact_witness :
  oras.filterAnnotationLoop (json := example.json) (regexp := example.regexp)
    (example.referred example.referrer) "k" None [example.referrer] []
  = ([], Ok []).
Proof.
  destruct (FilterAnnotation_skips_oci_artifact (json := example.json)
              (regexp := example.regexp) "k" None
              (example.referred example.referrer) example.referrer [] [])
    as [_ Hskip].
  - reflexivity.
  - reflexivity.
  - rewrite Hskip. reflexivity.
Defined.

(** The whole filter on the two referrers: the manifest of either carries
    the annotation "k"; the legacy artifact manifest is fetched and kept
    with its annotations, the OCI artifact manifest is neither. *)
Example FilterAnnotation_on_artifacts :
  (fun f => f (example.referred example.legacyReferrer) example.A)
    <$> oras.FindPredecessors
          (oras.FilterAnnotation (json := example.json) (regexp := example.regexp)
             "k" None (example.options 0))
  = Some ([CallPredecessors example.A; CallFetch example.legacyReferrer],
          Ok [ocispec.withAnnotations example.legacyReferrer (Some {[ "k" := "v" ]})])
  ∧ (fun f => f (example.referred example.referrer) example.A)
      <$> oras.FindPredecessors
            (oras.FilterAnnotation (json := example.json) (regexp := example.regexp)
             "k" None (example.options 0))
    = Some ([CallPredecessors example.A], Ok []).
Proof. split; reflexivity. Qed.

(** ** PackArtifact *)

Section PackFacts.
Context {pusher : Pusher} {env : PackEnv}.
Import pack.

(** C9, with the precondition that the model needs. When the artifact type
    is not empty and the manifest annotations carry the reserved key with a
    value that does not parse as RFC 3339, [PackArtifact] fails with
    [ErrInvalidDateTimeFormat] and pushes nothing. *)
Theorem PackArtifact_invalid_created dst artifactType blobs opts annotations value :
  artifactType ≠ "" ->
  ManifestAnnotations opts = Some annotations ->
  annotations !! ocispec.AnnotationArtifactCreated = Some value ->
  rfc3339.parse value = false ->
  PackArtifact dst artifactType blobs opts
  = {| pushed := []; store := dst; returned := Err ErrInvalidDateTimeFormat |}.
Proof.
  intros Htype Hopts Hkey Hparse. unfold PackArtifact.
  apply String.eqb_neq in Htype. rewrite Htype.
  unfold ensureAnnotationCreated. rewrite Hopts. simpl.
  rewrite Hkey, Hparse. reflexivity.
Qed.
End PackFacts.

Lemma PackArtifact_invalid_created_witness :
  pack.PackArtifact (pusher := example.pusher) (env := example.env)
    example.emptyStore "application/vnd.test" [] example.badCreated
  = {| pack.pushed := []; pack.store := example.emptyStore;
       pack.returned := Err ErrInvalidDateTimeFormat |}.
Proof.
  apply (PackArtifact_invalid_created (pusher := example.pusher) (env := example.env)
           example.emptyStore "application/vnd.test" [] example.badCreated
           {[ ocispec.AnnotationArtifactCreated := "2000/01/01 00:00:00" ]}
           "2000/01/01 00:00:00").
  - discriminate.
  - reflexivity.
  - apply lookup_singleton_eq.
  - reflexivity.
Defined.

(** C9, as the specification has it, fails: with an empty artifact type the
    call fails with [ErrMissingArtifactType], whatever the annotations. *)
Lemma PackArtifact_missing_type_first :
  pack.PackArtifact (pusher := example.pusher) (env := example.env)
    example.emptyStore "" [] example.badCreated
  = {| pack.pushed := []; pack.store := example.emptyStore;
       pack.returned := Err ErrMissingArtifactType |}.
Proof. reflexivity. Qed.

